(** * CAP: a peer-replicated key-value node (app.py)

    A shallow embedding of the write path of [app.py]: the in-memory store
    [data], the two replication helpers, and the three request handlers
    [handle_write], [handle_read] and [handle_replication].

    Python values that reach the handlers come out of [request.get_json()],
    so they are JSON values.  Modelling choices, all local to this header:

    - JSON numbers are the integer numerals ([JNum] over [Z]); numerals with
      a fraction or an exponent (Python floats) are outside the model.
    - A handler is a computation over the node's state that either returns
      or raises; state changes made before a [raise] persist, as in Python.
    - The peers are an oracle [net] from an outbound call to its outcome.
      Every outbound [requests.post] is appended to the log [wire], so
      "no replication attempt" is a statement about that log.
    - Threads are run to completion at the point where the source starts
      them, in the order they are started; an exception escaping a thread
      ends that thread only.  [app.logger] calls are dropped. *)

From Stdlib Require Import List String ZArith Bool Lia Permutation.
Import ListNotations.
Local Open Scope string_scope.
Local Open Scope Z_scope.

(** ** JSON values, as Python sees them *)

#[warnings="-register-all"]
Inductive json : Type :=
| JNull                                   (* None *)
| JBool (b : bool)                        (* True / False *)
| JNum  (n : Z)                           (* int *)
| JStr  (s : string)                      (* str *)
| JArr  (l : list json)                   (* list *)
| JObj  (o : list (string * json)).       (* dict, members in document order *)

(** [bool(x)]: the truth value Python gives to [x]. *)
Definition truthy (x : json) : bool :=
  match x with
  | JNull => false
  | JBool b => b
  | JNum n => negb (n =? 0)
  | JStr s => negb (s =? "")%string
  | JArr l => match l with [] => false | _ :: _ => true end
  | JObj o => match o with [] => false | _ :: _ => true end
  end.

(** [x is None]. *)
Definition is_None (x : json) : bool :=
  match x with JNull => true | _ => false end.

(** Exceptions the modelled code can meet. *)
Inductive exn : Type :=
| BadRequest          (* get_json() on a body that is not JSON *)
| AttributeError      (* .get on something that is not a dict *)
| TypeError           (* unhashable key *)
| RequestException    (* requests.exceptions.RequestException *)
| OtherError.         (* anything requests.post raises outside that class *)

Inductive outcome (A : Type) : Type :=
| Ok (a : A)
| Raise (e : exn).
Arguments Ok {A} a.
Arguments Raise {A} e.

(** [d.get(name)] on a parsed JSON object: the last member called [name]
    wins (as [json.loads] builds the dict), [None] when there is none. *)
Definition obj_get (o : list (string * json)) (name : string) : json :=
  fold_left (fun found m => if (fst m =? name)%string then snd m else found)
            o JNull.

(** [x.get(name)]: only a dict has the method. *)
Definition py_get (x : json) (name : string) : outcome json :=
  match x with
  | JObj o => Ok (obj_get o name)
  | _ => Raise AttributeError
  end.

(** ** The store: a Python dict keyed by hashable values *)

Definition hashable (k : json) : bool :=
  match k with
  | JArr _ | JObj _ => false
  | _ => true
  end.

(** Python's [==] on hashable JSON values; [True == 1] and [False == 0]. *)
Definition key_eqb (a b : json) : bool :=
  match a, b with
  | JNull, JNull => true
  | JStr s, JStr t => (s =? t)%string
  | JBool x, JBool y => Bool.eqb x y
  | JNum n, JNum m => n =? m
  | JBool x, JNum m => (if x then 1 else 0) =? m
  | JNum n, JBool y => n =? (if y then 1 else 0)
  | _, _ => false
  end.

(** Entries in insertion order. *)
Definition dict : Type := list (json * json).

(** [d[k] = v] for a hashable [k]: overwrite in place (the old key object
    stays), or append. *)
Fixpoint dict_store (k v : json) (d : dict) : dict :=
  match d with
  | [] => [(k, v)]
  | (k', v') :: d' =>
      if key_eqb k' k then (k', v) :: d'
      else (k', v') :: dict_store k v d'
  end.

(** [d[k]] / [k in d] for a hashable [k]. *)
Fixpoint dict_lookup (k : json) (d : dict) : option json :=
  match d with
  | [] => None
  | (k', v') :: d' => if key_eqb k' k then Some v' else dict_lookup k d'
  end.

(** ** Node state and the handler monad *)

(** One outbound [requests.post(url, json=..., timeout=...)]. *)
Record post_call : Type := mk_post {
  post_url : string;
  post_json : json;
  post_timeout_ms : Z
}.

(** What a call comes back with: a response carrying a status code, a
    [RequestException] (connection refused, timeout, ...), or some other
    exception. *)
Inductive post_result : Type :=
| Response (status_code : Z)
| Unreachable
| Crashed.

Record node : Type := mk_node {
  data : dict;              (* the module-level [data] *)
  wire : list post_call     (* every post issued so far, oldest first *)
}.

Definition M (A : Type) : Type := node -> outcome A * node.

Definition ret {A} (a : A) : M A := fun s => (Ok a, s).

Definition raise {A} (e : exn) : M A := fun s => (Raise e, s).

Definition bind {A B} (m : M A) (k : A -> M B) : M B :=
  fun s => match m s with
           | (Ok a, s') => k a s'
           | (Raise e, s') => (Raise e, s')
           end.

Definition lift {A} (o : outcome A) : M A := fun s => (o, s).

(** [try: m except <classes selected by h>: ...]; [h e = None] lets [e]
    propagate. *)
Definition try_except {A} (m : M A) (h : exn -> option (M A)) : M A :=
  fun s => match m s with
           | (Ok a, s') => (Ok a, s')
           | (Raise e, s') =>
               match h e with
               | Some k => k s'
               | None => (Raise e, s')
               end
           end.

Declare Scope py_scope.
Delimit Scope py_scope with py.
Notation "x <- c ;; k" := (bind c (fun x => k))
  (at level 61, c at next level, right associativity) : py_scope.
Notation "c ;;; k" := (bind c (fun _ => k))
  (at level 61, right associativity) : py_scope.
Local Open Scope py_scope.

(** [with data_lock: data[key] = value]. *)
Definition data_setitem (key value : json) : M unit :=
  fun s => if hashable key
           then (Ok tt, mk_node (dict_store key value (data s)) (wire s))
           else (Raise TypeError, s).

Definition read_data : M dict := fun s => (Ok (data s), s).

(** A thread started and left to finish: what it raises dies with it. *)
Definition run_thread (t : M unit) : M unit :=
  try_except t (fun _ => Some (ret tt)).

(** ** Requests and responses *)

Record request : Type := mk_request {
  json_body : option json;            (* None: get_json() raises *)
  args : list (string * string)       (* the query string *)
}.

Definition get_json (r : request) : outcome json :=
  match json_body r with
  | Some j => Ok j
  | None => Raise BadRequest
  end.

(** [request.args.get(name, default)]. *)
Fixpoint args_get (a : list (string * string)) (name default : string) : string :=
  match a with
  | [] => default
  | (n, v) :: a' => if (n =? name)%string then v else args_get a' name default
  end.

(** [jsonify(body), status]. *)
Record response : Type := mk_response {
  body : json;
  status : Z
}.

(** ** Peer registry *)

Definition PEER_NODES : list string := ["node1"; "node2"; "node3"].

(** [{node: f"http://{node}:5000" for node in PEER_NODES if node != NODE_ID}] *)
Definition PEER_URLS_for (NODE_ID : string) : list (string * string) :=
  map (fun node => (node, "http://" ++ node ++ ":5000"))
      (filter (fun node => negb (node =? NODE_ID)%string) PEER_NODES).

Section Node.

(** The module globals the handlers read, and the behaviour of the peers. *)
Variable PEER_URLS : list (string * string).
Variable net : post_call -> post_result.

Definition peer_values : list string := map snd PEER_URLS.

(** [requests.post(url, json=payload, timeout=t)]: the call goes on the
    wire, then returns the status code or raises. *)
Definition requests_post (c : post_call) : M Z :=
  fun s =>
    let s' := mk_node (data s) (wire s ++ [c])%list in
    match net c with
    | Response code => (Ok code, s')
    | Unreachable => (Raise RequestException, s')
    | Crashed => (Raise OtherError, s')
    end.

Definition only_RequestException {A} (k : M A) (e : exn) : option (M A) :=
  match e with
  | RequestException => Some k
  | _ => None
  end.

Definition payload_of (key value : json) : json :=
  JObj [("key", key); ("value", value)].

(** *** replicate_write *)

Fixpoint replicate_write_loop (payload : json) (urls : list string) : M unit :=
  match urls with
  | [] => ret tt
  | node_url :: rest =>
      try_except
        (_ <- requests_post (mk_post (node_url ++ "/replicate") payload 500) ;;
         ret tt)
        (only_RequestException (ret tt)) ;;;
      replicate_write_loop payload rest
  end.

Definition replicate_write (key value : json) : M unit :=
  replicate_write_loop (payload_of key value) peer_values.

(** *** replicate_write_synchronous *)

(** The nested [send_request(url, results)]; [results] is the list the
    threads share, passed in and handed back. *)
Definition send_request (payload : json) (url : string) (results : list bool)
  : M (list bool) :=
  try_except
    (code <- requests_post (mk_post (url ++ "/replicate") payload 2000) ;;
     if code =? 200 then ret (results ++ [true])%list else ret results)
    (only_RequestException (ret results)).

(** One started-and-joined thread running [send_request]: if it dies,
    [results] is as it found it. *)
Definition send_thread (payload : json) (url : string) (results : list bool)
  : M (list bool) :=
  try_except (send_request payload url results) (fun _ => Some (ret results)).

Fixpoint send_all (payload : json) (urls : list string) (results : list bool)
  : M (list bool) :=
  match urls with
  | [] => ret results
  | node_url :: rest =>
      results' <- send_thread payload node_url results ;;
      send_all payload rest results'
  end.

Definition replicate_write_synchronous_on (urls : list string)
  (key value : json) : M Z :=
  results <- send_all (payload_of key value) urls [] ;;
  ret (Z.of_nat (List.length results)).

Definition replicate_write_synchronous (key value : json) : M Z :=
  replicate_write_synchronous_on peer_values key value.

(** *** handle_write *)

Definition quorum : Z := 1.

Definition err_missing : response :=
  mk_response (JObj [("error", JStr "Missing key or value")]) 400.
Definition err_invalid_json : response :=
  mk_response (JObj [("error", JStr "Invalid JSON")]) 400.
Definition ok_strong : response :=
  mk_response (JObj [("status", JStr "success");
                     ("message", JStr "Write committed with strong consistency")]) 200.
Definition err_quorum : response :=
  mk_response (JObj [("status", JStr "error");
                     ("message", JStr "Could not achieve quorum.")]) 503.
Definition ok_eventual : response :=
  mk_response (JObj [("status", JStr "success");
                     ("message", JStr "Write accepted")]) 200.

(** The [try] block at the head of [handle_write]: either an early return
    (left) or the validated pair. *)
Definition write_prologue (req : request) : M (response + json * json) :=
  try_except
    (write_data <- lift (get_json req) ;;
     key <- lift (py_get write_data "key") ;;
     value <- lift (py_get write_data "value") ;;
     if negb (truthy key) || is_None value
     then ret (inl err_missing)
     else ret (inr (key, value)))
    (fun _ => Some (ret (inl err_invalid_json))).

Definition handle_write (req : request) : M response :=
  early <- write_prologue req ;;
  match early with
  | inl r => ret r
  | inr (key, value) =>
      let consistency := args_get (args req) "consistency" "eventual" in
      if (consistency =? "strong")%string then
        acks <- replicate_write_synchronous key value ;;
        if acks >=? quorum then
          data_setitem key value ;;;
          ret ok_strong
        else
          ret err_quorum
      else
        data_setitem key value ;;;
        run_thread (replicate_write key value) ;;;
        ret ok_eventual
  end.

(** *** handle_read *)

Definition err_not_found : response :=
  mk_response (JObj [("error", JStr "Key not found")]) 404.

Definition handle_read (key : string) : M response :=
  d <- read_data ;;
  match dict_lookup (JStr key) d with
  | Some v => ret (mk_response (JObj [("key", JStr key); ("value", v)]) 200)
  | None => ret err_not_found
  end.

(** *** handle_replication *)

Definition ok_replicated : response :=
  mk_response (JObj [("status", JStr "success")]) 200.
Definition err_replication : response :=
  mk_response (JObj [("error", JStr "Invalid replication data")]) 400.

Definition handle_replication (req : request) : M response :=
  try_except
    (replication_data <- lift (get_json req) ;;
     key <- lift (py_get replication_data "key") ;;
     value <- lift (py_get replication_data "value") ;;
     data_setitem key value ;;;
     ret ok_replicated)
    (fun _ => Some (ret err_replication)).

End Node.

(** ** Sample deployments and requests *)

(** The three-node cluster seen from node1. *)
Definition node1_peers : list (string * string) := PEER_URLS_for "node1".

Definition all_down : post_call -> post_result := fun _ => Unreachable.
Definition all_up : post_call -> post_result := fun _ => Response 200.

(** node2 answers 200, everyone else times out. *)
Definition only_node2 : post_call -> post_result :=
  fun c => if (post_url c =? "http://node2:5000/replicate")%string
           then Response 200 else Unreachable.

Definition write_req (key value : json) (consistency : option string) : request :=
  mk_request (Some (JObj [("key", key); ("value", value)]))
             (match consistency with
              | Some c => [("consistency", c)]
              | None => []
              end).

Definition empty_node : node := mk_node [] [].
Definition node_with_x : node := mk_node [(JStr "x", JStr "old")] [].

(** ** Vocabulary of the specification *)

(** A peer acknowledges a quorum-path call when it answers with status 200. *)
Definition acknowledged (net : post_call -> post_result) (payload : json)
  (url : string) : bool :=
  match net (mk_post (url ++ "/replicate") payload 2000) with
  | Response code => code =? 200
  | _ => false
  end.

Definition ack_count (net : post_call -> post_result) (urls : list string)
  (key value : json) : Z :=
  Z.of_nat (List.length (filter (acknowledged net (payload_of key value)) urls)).

(** The calls the quorum path puts on the wire, one per peer. *)
Definition sync_calls (payload : json) (urls : list string) : list post_call :=
  map (fun url => mk_post (url ++ "/replicate") payload 2000) urls.

(** The request body is an object whose [key] and [value] members read as
    [key] and [value]. *)
Definition carries (req : request) (key value : json) : Prop :=
  exists o, json_body req = Some (JObj o)
            /\ obj_get o "key" = key /\ obj_get o "value" = value.

(** No member of the object is called [name]. *)
Definition absent (o : list (string * json)) (name : string) : Prop :=
  forall m, In m o -> fst m <> name.

(** A write entry the specification calls invalid: the key is missing or
    the empty string, or the value is missing or null. *)
Definition invalid_entry (o : list (string * json)) : Prop :=
  absent o "key" \/ obj_get o "key" = JStr ""
  \/ absent o "value" \/ obj_get o "value" = JNull.

(** The falsy JSON values other than null. *)
Definition falsy_not_null : list json :=
  [JNum 0; JBool false; JStr ""; JArr []; JObj []].

(** The answer of [handle_read] on a hit. *)
Definition found (key : string) (value : json) : response :=
  mk_response (JObj [("key", JStr key); ("value", value)]) 200.

Definition consistency_of (req : request) : string :=
  args_get (args req) "consistency" "eventual".

(** What a handler leaves behind, and what it answers. *)
Definition after {A} (m : M A) (s : node) : node := snd (m s).
Definition answer {A} (m : M A) (s : node) : outcome A := fst (m s).

(** The calls the fire-and-forget path puts on the wire when none of them
    crashes its thread, one per peer. *)
Definition async_calls (payload : json) (urls : list string) : list post_call :=
  map (fun url => mk_post (url ++ "/replicate") payload 500) urls.


(** The keys of the store, in insertion order. *)
Definition dict_keys (d : dict) : list json := map fst d.

(** ** A cluster whose peers run this same program *)

(** What a peer does with a call it receives: the JSON payload is the body
    of a request to its [/replicate] endpoint. *)
Definition deliver (c : post_call) : M response :=
  handle_replication (mk_request (Some (post_json c)) []).

(** The peers as seen from the sender when every peer is reachable and runs
    [handle_replication]: the status of the peer's answer comes back (500
    if the handler lets an exception out). *)
Definition replica_net (c : post_call) : post_result :=
  match answer (deliver c) empty_node with
  | Ok r => Response (status r)
  | Raise _ => Response 500
  end.

(** * Properties *)

(** ** The store *)

Lemma key_eqb_refl (k : json) : hashable k = true -> key_eqb k k = true.
Proof.
  destruct k as [ | b | n | s | l | o ]; simpl; intros H; try discriminate.
  - reflexivity.
  - destruct b; reflexivity.
  - apply Z.eqb_refl.
  - apply String.eqb_refl.
Qed.

Lemma dict_store_idem (k v : json) (d : dict) :
  hashable k = true -> dict_store k v (dict_store k v d) = dict_store k v d.
Proof.
  intros Hk. induction d as [ | [k' v'] d IH ]; simpl.
  - rewrite (key_eqb_refl k Hk). reflexivity.
  - destruct (key_eqb k' k) eqn:E; simpl; rewrite E.
    + reflexivity.
    + rewrite IH. reflexivity.
Qed.

Lemma dict_lookup_store (k v : json) (d : dict) :
  hashable k = true -> dict_lookup k (dict_store k v d) = Some v.
Proof.
  intros Hk. induction d as [ | [k' v'] d IH ]; simpl.
  - rewrite (key_eqb_refl k Hk). reflexivity.
  - destruct (key_eqb k' k) eqn:E; simpl; rewrite E.
    + reflexivity.
    + exact IH.
Qed.

(** A member that is not there reads as [None]. *)
Lemma obj_get_absent (o : list (string * json)) (name : string) :
  (forall m, In m o -> fst m <> name) -> obj_get o name = JNull.
Proof.
  unfold obj_get. generalize JNull as acc.
  induction o as [ | m o IH ]; intros acc H; simpl.
  - reflexivity.
  - destruct (String.eqb_spec (fst m) name) as [E | E].
    + exfalso. apply (H m); [ left; reflexivity | exact E ].
    + apply IH. intros m' Hm'. apply H. right. exact Hm'.
Qed.

(** ** The quorum fan-out *)

Section Fanout.

Variable net : post_call -> post_result.

Lemma send_thread_run (payload : json) (url : string) (results : list bool)
  (s : node) :
  send_thread net payload url results s =
  (Ok (if acknowledged net payload url then results ++ [true] else results)%list,
   mk_node (data s) (wire s ++ [mk_post (url ++ "/replicate") payload 2000])).
Proof.
  unfold send_thread, send_request, try_except, bind, requests_post, acknowledged.
  destruct (net _) as [ code | | ]; simpl; [ destruct (code =? 200) | | ];
    reflexivity.
Qed.

Lemma send_all_run (payload : json) (urls : list string) :
  forall (results : list bool) (s : node),
    send_all net payload urls results s =
    (Ok (results ++ repeat true
           (List.length (filter (acknowledged net payload) urls)))%list,
     mk_node (data s) (wire s ++ sync_calls payload urls)).
Proof.
  induction urls as [ | url urls IH ]; intros results s; simpl.
  - unfold ret. rewrite !app_nil_r. destruct s; reflexivity.
  - unfold bind. rewrite send_thread_run, IH. simpl.
    rewrite <- app_assoc. simpl.
    destruct (acknowledged net payload url); simpl.
    + rewrite <- app_assoc. reflexivity.
    + reflexivity.
Qed.

Lemma replicate_write_synchronous_on_run (urls : list string)
  (key value : json) (s : node) :
  replicate_write_synchronous_on net urls key value s =
  (Ok (ack_count net urls key value),
   mk_node (data s) (wire s ++ sync_calls (payload_of key value) urls)).
Proof.
  unfold replicate_write_synchronous_on, bind, ret, ack_count.
  rewrite send_all_run. simpl. rewrite repeat_length. reflexivity.
Qed.

(** The fire-and-forget loop never touches the store. *)
Lemma replicate_write_loop_data (payload : json) (urls : list string) :
  forall s, data (snd (replicate_write_loop net payload urls s)) = data s.
Proof.
  induction urls as [ | url urls IH ]; intros s; simpl.
  - reflexivity.
  - unfold bind, try_except, requests_post, only_RequestException, ret.
    destruct (net _); simpl; try rewrite IH; reflexivity.
Qed.

Lemma background_replication (PEER_URLS : list (string * string))
  (key value : json) (s : node) :
  exists w, run_thread (replicate_write PEER_URLS net key value) s =
            (Ok tt, mk_node (data s) w).
Proof.
  unfold run_thread, replicate_write, try_except.
  pose proof (replicate_write_loop_data (payload_of key value)
                (peer_values PEER_URLS) s) as H.
  destruct (replicate_write_loop net _ _ s) as [[ [] | e ] [d w]];
    simpl in *; subst d; exists w; reflexivity.
Qed.

End Fanout.

(** ** The write coordinator *)

Lemma write_prologue_valid (req : request) (key value : json) (s : node) :
  carries req key value -> truthy key = true -> value <> JNull ->
  write_prologue req s = (Ok (inr (key, value)), s).
Proof.
  intros (o & Hb & Hk & Hv) Ht Hn.
  unfold write_prologue, try_except, bind, lift, get_json, ret.
  rewrite Hb. simpl. rewrite Hk, Hv, Ht.
  destruct value; try reflexivity. contradiction Hn. reflexivity.
Qed.

Lemma write_prologue_invalid (req : request) (key value : json) (s : node) :
  carries req key value -> truthy key = false \/ value = JNull ->
  write_prologue req s = (Ok (inl err_missing), s).
Proof.
  intros (o & Hb & Hk & Hv) H.
  unfold write_prologue, try_except, bind, lift, get_json, ret.
  rewrite Hb. simpl. rewrite Hk, Hv.
  destruct H as [Ht | Hn].
  - rewrite Ht. reflexivity.
  - rewrite Hn. simpl. rewrite orb_true_r. reflexivity.
Qed.

(** A body that is not JSON, or JSON that is not an object, is answered
    400 as well, with nothing touched. *)
Lemma write_prologue_not_object (req : request) (s : node) :
  (forall o, json_body req <> Some (JObj o)) ->
  write_prologue req s = (Ok (inl err_invalid_json), s).
Proof.
  intros H.
  unfold write_prologue, try_except, bind, lift, get_json, ret.
  destruct (json_body req) as [ [ | b | n | t | l | o ] | ]; try reflexivity.
  exfalso. apply (H o). reflexivity.
Qed.

Section Coordinator.

Variable PEER_URLS : list (string * string).
Variable net : post_call -> post_result.

Lemma handle_write_strong_run (req : request) (key value : json) (s : node) :
  carries req key value -> truthy key = true -> value <> JNull ->
  consistency_of req = "strong" ->
  handle_write PEER_URLS net req s =
  let s1 := mk_node (data s)
              (wire s ++ sync_calls (payload_of key value)
                                    (peer_values PEER_URLS)) in
  if ack_count net (peer_values PEER_URLS) key value >=? quorum then
    if hashable key
    then (Ok ok_strong, mk_node (dict_store key value (data s)) (wire s1))
    else (Raise TypeError, s1)
  else (Ok err_quorum, s1).
Proof.
  intros Hc Ht Hn Hs. unfold handle_write, bind at 1.
  rewrite (write_prologue_valid req key value s Hc Ht Hn).
  fold (consistency_of req). rewrite Hs. simpl.
  unfold replicate_write_synchronous, bind at 1.
  rewrite replicate_write_synchronous_on_run.
  destruct (_ >=? quorum); [ | reflexivity ].
  unfold bind, data_setitem, ret. simpl.
  destruct (hashable key); reflexivity.
Qed.

Lemma handle_write_eventual_run (req : request) (key value : json) (s : node) :
  carries req key value -> truthy key = true -> value <> JNull ->
  consistency_of req <> "strong" -> hashable key = true ->
  exists w, handle_write PEER_URLS net req s =
            (Ok ok_eventual, mk_node (dict_store key value (data s)) w).
Proof.
  intros Hc Ht Hn Hs Hh. unfold handle_write, bind at 1.
  rewrite (write_prologue_valid req key value s Hc Ht Hn).
  fold (consistency_of req).
  destruct (String.eqb_spec (consistency_of req) "strong") as [E | _];
    [ contradiction | ].
  unfold bind at 1, data_setitem. rewrite Hh.
  destruct (background_replication net PEER_URLS key value
              (mk_node (dict_store key value (data s)) (wire s))) as [w Hw].
  unfold bind at 1. rewrite Hw. exists w. reflexivity.
Qed.

Lemma handle_write_invalid_run (req : request) (key value : json) (s : node) :
  carries req key value -> truthy key = false \/ value = JNull ->
  handle_write PEER_URLS net req s = (Ok err_missing, s).
Proof.
  intros Hc H. unfold handle_write, bind.
  rewrite (write_prologue_invalid req key value s Hc H). reflexivity.
Qed.

Lemma handle_read_run (key : string) (s : node) :
  handle_read key s =
  (Ok (match dict_lookup (JStr key) (data s) with
       | Some v => found key v
       | None => err_not_found
       end), s).
Proof.
  unfold handle_read, bind, read_data, ret.
  destruct (dict_lookup (JStr key) (data s)); reflexivity.
Qed.

Lemma truthy_nonempty (k : string) : k <> "" -> truthy (JStr k) = true.
Proof.
  intros Hk. simpl. destruct (String.eqb_spec k ""); [ contradiction | reflexivity ].
Qed.

Lemma read_after_store (k : string) (value : json) (d : dict)
  (w : list post_call) :
  answer (handle_read k) (mk_node (dict_store (JStr k) value d) w)
  = Ok (found k value).
Proof.
  unfold answer. rewrite handle_read_run. simpl.
  rewrite dict_lookup_store by reflexivity. reflexivity.
Qed.

(** A valid strong write with a hashable key and the quorum met. *)
Lemma handle_write_strong_commit (req : request) (key value : json) (s : node) :
  carries req key value -> truthy key = true -> value <> JNull ->
  consistency_of req = "strong" -> hashable key = true ->
  quorum <= ack_count net (peer_values PEER_URLS) key value ->
  handle_write PEER_URLS net req s =
  (Ok ok_strong,
   mk_node (dict_store key value (data s))
           (wire s ++ sync_calls (payload_of key value) (peer_values PEER_URLS))).
Proof.
  intros Hc Ht Hn Hs Hh Hq.
  rewrite (handle_write_strong_run req key value s Hc Ht Hn Hs).
  cbv zeta. rewrite Hh.
  replace (_ >=? quorum) with true
    by (symmetry; rewrite Z.geb_leb; apply Z.leb_le; exact Hq).
  reflexivity.
Qed.

End Coordinator.

(** ** The replication receiver *)

Lemma handle_replication_run (req : request) (s : node) :
  handle_replication req s =
  match json_body req with
  | Some (JObj o) =>
      if hashable (obj_get o "key")
      then (Ok ok_replicated,
            mk_node (dict_store (obj_get o "key") (obj_get o "value") (data s))
                    (wire s))
      else (Ok err_replication, s)
  | _ => (Ok err_replication, s)
  end.
Proof.
  unfold handle_replication, try_except, bind, lift, get_json, data_setitem, ret.
  destruct (json_body req) as [ [ | b | n | t | l | o ] | ]; try reflexivity.
  simpl. destruct (hashable (obj_get o "key")); reflexivity.
Qed.

(** C1 (the code departs from the claim): a replicated payload with neither
    member, and one with a key but no value, are both answered 200 and
    stored, under the key [None] and with the value [None] respectively;
    the claim wants them rejected with the store untouched. *)
Theorem replication_stores_missing_fields :
  handle_replication (mk_request (Some (JObj [])) []) empty_node
  = (Ok ok_replicated, mk_node [(JNull, JNull)] [])
  /\ handle_replication (mk_request (Some (JObj [("key", JStr "a")])) [])
       node_with_x
     = (Ok ok_replicated, mk_node [(JStr "x", JStr "old"); (JStr "a", JNull)] []).
Proof.
  split; reflexivity.
Qed.

(** C7: handling the same replicated write twice in a row leaves the node
    (store and wire) exactly as handling it once does. *)
Theorem replication_idempotent (req : request) (s : node) :
  after (handle_replication req) (after (handle_replication req) s)
  = after (handle_replication req) s.
Proof.
  unfold after. rewrite !handle_replication_run.
  destruct (json_body req) as [ [ | b | n | t | l | o ] | ];
    simpl; try reflexivity.
  destruct (hashable (obj_get o "key")) eqn:Hh; simpl.
  - rewrite dict_store_idem by exact Hh. reflexivity.
  - reflexivity.
Qed.

(** C8: handling an inbound replicated write puts nothing on the wire, and
    changes the store by at most the one assignment [data[key] = value]. *)
Theorem replication_receiver_sends_nothing (req : request) (s : node) :
  wire (after (handle_replication req) s) = wire s
  /\ (data (after (handle_replication req) s) = data s
      \/ exists key value,
           carries req key value
           /\ data (after (handle_replication req) s)
              = dict_store key value (data s)).
Proof.
  unfold after. rewrite handle_replication_run.
  destruct (json_body req) as [ [ | b | n | t | l | o ] | ] eqn:Hb;
    simpl; try (split; [ reflexivity | left; reflexivity ]).
  destruct (hashable (obj_get o "key")); simpl.
  - split; [ reflexivity | right ].
    exists (obj_get o "key"), (obj_get o "value").
    split; [ exists o; auto | reflexivity ].
  - split; [ reflexivity | left; reflexivity ].
Qed.

(** ** Claims about the quorum fan-out and the write coordinator *)

(** The tally does not depend on the order in which the threads run. *)
Lemma ack_count_schedule (net : post_call -> post_result)
  (urls urls' : list string) (key value : json) :
  Permutation urls urls' ->
  ack_count net urls key value = ack_count net urls' key value.
Proof.
  intros H. unfold ack_count. f_equal.
  induction H as [ | u l l' _ IH | u u' l | l l' l'' _ IH1 _ IH2 ]; simpl.
  - reflexivity.
  - destruct (acknowledged net _ u); simpl; rewrite IH; reflexivity.
  - destruct (acknowledged net _ u), (acknowledged net _ u'); reflexivity.
  - rewrite IH1. exact IH2.
Qed.

Section Claims.

Variable PEER_URLS : list (string * string).
Variable net : post_call -> post_result.

(** C6: the value [replicate_write_synchronous] returns is the number of
    peers whose call came back with status 200, and the store is not
    touched; a peer's thread adds its [True] to [results] exactly when its
    call came back with status 200, and leaves [results] alone exactly
    when it came back with anything else (another status, a
    [RequestException], any other exception). *)
Theorem sync_acks_count_successes (key value : json) (s : node) :
  answer (replicate_write_synchronous PEER_URLS net key value) s
  = Ok (Z.of_nat (List.length
         (filter (fun url =>
                    match net (mk_post (url ++ "/replicate")
                                       (payload_of key value) 2000) with
                    | Response 200 => true
                    | _ => false
                    end) (peer_values PEER_URLS))))
  /\ data (after (replicate_write_synchronous PEER_URLS net key value) s)
     = data s
  /\ (forall url results s0,
        answer (send_thread net (payload_of key value) url results) s0
        = Ok (results ++ [true])%list
        <-> net (mk_post (url ++ "/replicate") (payload_of key value) 2000)
            = Response 200)
  /\ (forall url results s0,
        answer (send_thread net (payload_of key value) url results) s0
        = Ok results
        <-> net (mk_post (url ++ "/replicate") (payload_of key value) 2000)
            <> Response 200).
Proof.
  assert (Hack : forall url,
            acknowledged net (payload_of key value) url = true
            <-> net (mk_post (url ++ "/replicate") (payload_of key value) 2000)
                = Response 200).
  { intros url. unfold acknowledged.
    destruct (net _) as [ code | | ]; [ | split; discriminate .. ].
    rewrite Z.eqb_eq. split; [ intros ->; reflexivity | congruence ]. }
  assert (Hgrow : forall results : list bool,
            (results ++ [true])%list <> results).
  { intros results E. apply (f_equal (@List.length bool)) in E.
    rewrite length_app in E. simpl in E. lia. }
  unfold answer, after, replicate_write_synchronous.
  rewrite replicate_write_synchronous_on_run. simpl.
  split; [ | split; [ reflexivity | split ] ].
  - unfold ack_count. do 3 f_equal.
  - intros url results s0. rewrite send_thread_run. simpl.
    rewrite <- Hack.
    destruct (acknowledged net (payload_of key value) url).
    + split; reflexivity.
    + split; [ | discriminate ].
      intros E. injection E as E. symmetry in E.
      contradiction (Hgrow results E).
  - intros url results s0. rewrite send_thread_run. simpl.
    rewrite <- Hack.
    destruct (acknowledged net (payload_of key value) url).
    + split; [ | intros H; contradiction H; reflexivity ].
      intros E. injection E as E. contradiction (Hgrow results E).
    + split; [ discriminate | reflexivity ].
Qed.

(** C2: a valid strong write that fewer than [quorum] peers acknowledge is
    answered with the 503 "Could not achieve quorum." response, the store
    is exactly what it was, and every local read answers as it did before
    the attempt. *)
Theorem strong_write_below_quorum (req : request) (key value : json)
  (s : node) :
  carries req key value -> truthy key = true -> value <> JNull ->
  consistency_of req = "strong" ->
  ack_count net (peer_values PEER_URLS) key value < quorum ->
  answer (handle_write PEER_URLS net req) s = Ok err_quorum
  /\ status err_quorum = 503
  /\ data (after (handle_write PEER_URLS net req) s) = data s
  /\ forall k, answer (handle_read k) (after (handle_write PEER_URLS net req) s)
               = answer (handle_read k) s.
Proof.
  intros Hc Ht Hn Hs Hq. unfold answer, after.
  rewrite (handle_write_strong_run PEER_URLS net req key value s Hc Ht Hn Hs).
  cbv zeta.
  replace (_ >=? quorum) with false by (symmetry; rewrite Z.geb_leb; apply Z.leb_gt; exact Hq).
  simpl. repeat split.
  intros k. rewrite !handle_read_run. reflexivity.
Qed.

(** C3: a valid strong write (non-empty string key, non-null value) that
    at least [quorum] peers acknowledge is answered 200 "Write committed
    with strong consistency", the entry is assigned in the store, and the
    local read of the key that follows answers with the value. *)
Theorem strong_write_at_quorum (req : request) (k : string) (value : json)
  (s : node) :
  carries req (JStr k) value -> k <> "" -> value <> JNull ->
  consistency_of req = "strong" ->
  quorum <= ack_count net (peer_values PEER_URLS) (JStr k) value ->
  answer (handle_write PEER_URLS net req) s = Ok ok_strong
  /\ status ok_strong = 200
  /\ data (after (handle_write PEER_URLS net req) s)
     = dict_store (JStr k) value (data s)
  /\ answer (handle_read k) (after (handle_write PEER_URLS net req) s)
     = Ok (found k value).
Proof.
  intros Hc Hk Hn Hs Hq. unfold answer, after.
  rewrite (handle_write_strong_commit PEER_URLS net req (JStr k) value s
             Hc (truthy_nonempty k Hk) Hn Hs eq_refl Hq).
  simpl. repeat split. apply read_after_store.
Qed.

(** C4: a valid write whose consistency is anything but "strong" is
    answered 200 "Write accepted", the entry is assigned in the store, and
    the local read of the key that follows answers with the value,
    whatever the peers do. *)
Theorem eventual_write_commits (req : request) (k : string) (value : json)
  (s : node) :
  carries req (JStr k) value -> k <> "" -> value <> JNull ->
  consistency_of req <> "strong" ->
  answer (handle_write PEER_URLS net req) s = Ok ok_eventual
  /\ status ok_eventual = 200
  /\ data (after (handle_write PEER_URLS net req) s)
     = dict_store (JStr k) value (data s)
  /\ answer (handle_read k) (after (handle_write PEER_URLS net req) s)
     = Ok (found k value).
Proof.
  intros Hc Hk Hn Hs.
  destruct (handle_write_eventual_run PEER_URLS net req (JStr k) value s
              Hc (truthy_nonempty k Hk) Hn Hs eq_refl) as [w Hw].
  unfold answer, after. rewrite Hw. simpl. repeat split.
  apply read_after_store.
Qed.

(** C5: a write whose key is missing or empty, or whose value is missing
    or null, is answered 400 "Missing key or value"; the store is as it
    was and nothing was put on the wire. *)
Theorem invalid_write_rejected (req : request) (o : list (string * json))
  (s : node) :
  json_body req = Some (JObj o) -> invalid_entry o ->
  answer (handle_write PEER_URLS net req) s = Ok err_missing
  /\ status err_missing = 400
  /\ data (after (handle_write PEER_URLS net req) s) = data s
  /\ wire (after (handle_write PEER_URLS net req) s) = wire s.
Proof.
  intros Hb Hi.
  assert (Hc : carries req (obj_get o "key") (obj_get o "value")).
  { exists o. auto. }
  assert (H : truthy (obj_get o "key") = false \/ obj_get o "value" = JNull).
  { destruct Hi as [ Ha | [ He | [ Ha | Hn ] ] ].
    - left. rewrite (obj_get_absent o "key" Ha). reflexivity.
    - left. rewrite He. reflexivity.
    - right. apply obj_get_absent. exact Ha.
    - right. exact Hn. }
  unfold answer, after.
  rewrite (handle_write_invalid_run PEER_URLS net req _ _ s Hc H).
  simpl. repeat split.
Qed.

End Claims.

(** C9: with an empty peer registry the acknowledgement count of every
    valid strong write is 0, below the quorum of 1, so the write is
    answered with the 503 quorum response and the node is left as it was. *)
Theorem zero_peers_strong_write_rejected (net : post_call -> post_result)
  (req : request) (key value : json) (s : node) :
  carries req key value -> truthy key = true -> value <> JNull ->
  consistency_of req = "strong" ->
  answer (replicate_write_synchronous [] net key value) s = Ok 0
  /\ 0 < quorum
  /\ handle_write [] net req s = (Ok err_quorum, s).
Proof.
  intros Hc Ht Hn Hs. split; [ reflexivity | split; [ reflexivity | ] ].
  rewrite (handle_write_strong_run [] net req key value s Hc Ht Hn Hs).
  simpl. rewrite app_nil_r. destruct s; reflexivity.
Qed.

(** C10: the key test of [handle_write] is truthiness.  A key that is
    present but is 0, false, the empty string, an empty array or an empty
    object gets the 400 "Missing key or value" answer with the node left as
    it was (store and wire); a value that is 0, false or the empty string
    passes the test and is stored: at once by an eventual write, and by a
    strong write once the quorum is met. *)
Theorem write_key_truthiness (PEER_URLS : list (string * string))
  (net : post_call -> post_result) (req : request) (key value : json)
  (s : node) :
  carries req key value ->
  (In key falsy_not_null ->
     handle_write PEER_URLS net req s = (Ok err_missing, s))
  /\ (forall k, key = JStr k -> k <> "" ->
      In value [JNum 0; JBool false; JStr ""] ->
      (consistency_of req <> "strong" ->
         answer (handle_write PEER_URLS net req) s = Ok ok_eventual
         /\ answer (handle_read k) (after (handle_write PEER_URLS net req) s)
            = Ok (found k value))
      /\ (consistency_of req = "strong" ->
          quorum <= ack_count net (peer_values PEER_URLS) key value ->
          answer (handle_write PEER_URLS net req) s = Ok ok_strong
          /\ answer (handle_read k) (after (handle_write PEER_URLS net req) s)
             = Ok (found k value))).
Proof.
  intros Hc. split.
  - intros Hf. apply (handle_write_invalid_run PEER_URLS net req key value s Hc).
    left. simpl in Hf.
    destruct Hf as [ <- | [ <- | [ <- | [ <- | [ <- | [] ] ] ] ] ]; reflexivity.
  - intros k -> Hk Hv.
    assert (Hn : value <> JNull).
    { simpl in Hv. destruct Hv as [ <- | [ <- | [ <- | [] ] ] ]; discriminate. }
    split.
    + intros Hs.
      destruct (handle_write_eventual_run PEER_URLS net req (JStr k) value s
                  Hc (truthy_nonempty k Hk) Hn Hs eq_refl) as [w Hw].
      unfold answer, after. rewrite Hw. simpl.
      split; [ reflexivity | apply read_after_store ].
    + intros Hs Hq. unfold answer, after.
      rewrite (handle_write_strong_commit PEER_URLS net req (JStr k) value s
                 Hc (truthy_nonempty k Hk) Hn Hs eq_refl Hq).
      simpl. split; [ reflexivity | apply read_after_store ].
Qed.

(** ** The scenarios of the specification, run through the theorems *)

Lemma carries_write_req (key value : json) (c : option string) :
  carries (write_req key value c) key value.
Proof.
  exists [("key", key); ("value", value)]. repeat split.
Defined.

(** Node A, both peers timing out, strong write of y = "2" on an empty
    store: 503, and the store is still empty. *)
Lemma strong_write_below_quorum_witness :
  ack_count all_down (peer_values node1_peers) (JStr "y") (JStr "2") < quorum
  /\ answer (handle_write node1_peers all_down
               (write_req (JStr "y") (JStr "2") (Some "strong"))) empty_node
     = Ok err_quorum
  /\ data (after (handle_write node1_peers all_down
                    (write_req (JStr "y") (JStr "2") (Some "strong")))
                 empty_node) = [].
Proof.
  split; [ reflexivity | ].
  destruct (strong_write_below_quorum node1_peers all_down
              (write_req (JStr "y") (JStr "2") (Some "strong"))
              (JStr "y") (JStr "2") empty_node) as (Ha & _ & Hd & _).
  - apply carries_write_req.
  - reflexivity.
  - discriminate.
  - reflexivity.
  - reflexivity.
  - split; [ exact Ha | exact Hd ].
Defined.

(** Node A, node2 acknowledging, strong write of x = "1" over an older x:
    200, and the read of x answers "1". *)
Lemma strong_write_at_quorum_witness :
  quorum <= ack_count only_node2 (peer_values node1_peers) (JStr "x") (JStr "1")
  /\ answer (handle_write node1_peers only_node2
               (write_req (JStr "x") (JStr "1") (Some "strong"))) node_with_x
     = Ok ok_strong
  /\ answer (handle_read "x")
       (after (handle_write node1_peers only_node2
                 (write_req (JStr "x") (JStr "1") (Some "strong"))) node_with_x)
     = Ok (found "x" (JStr "1")).
Proof.
  assert (Hq : quorum
               <= ack_count only_node2 (peer_values node1_peers)
                    (JStr "x") (JStr "1")).
  { vm_compute. discriminate. }
  split; [ exact Hq | ].
  destruct (strong_write_at_quorum node1_peers only_node2
              (write_req (JStr "x") (JStr "1") (Some "strong"))
              "x" (JStr "1") node_with_x) as (Ha & _ & _ & Hr).
  - apply carries_write_req.
  - discriminate.
  - discriminate.
  - reflexivity.
  - exact Hq.
  - split; [ exact Ha | exact Hr ].
Defined.

(** Node A, every peer unreachable, eventual write of z = "3": 200, and
    the read of z answers "3". *)
Lemma eventual_write_commits_witness :
  answer (handle_write node1_peers all_down
            (write_req (JStr "z") (JStr "3") None)) empty_node
  = Ok ok_eventual
  /\ answer (handle_read "z")
       (after (handle_write node1_peers all_down
                 (write_req (JStr "z") (JStr "3") None)) empty_node)
     = Ok (found "z" (JStr "3")).
Proof.
  destruct (eventual_write_commits node1_peers all_down
              (write_req (JStr "z") (JStr "3") None)
              "z" (JStr "3") empty_node) as (Ha & _ & _ & Hr).
  - apply carries_write_req.
  - discriminate.
  - discriminate.
  - discriminate.
  - split; [ exact Ha | exact Hr ].
Defined.

(** A write body with a value and no key, peers all up: 400, nothing
    stored, nothing sent. *)
Lemma invalid_write_rejected_witness :
  invalid_entry [("value", JStr "v")]
  /\ handle_write node1_peers all_up
       (mk_request (Some (JObj [("value", JStr "v")])) []) node_with_x
     = (Ok err_missing, node_with_x).
Proof.
  assert (Hi : invalid_entry [("value", JStr "v")]).
  { left. intros m [ <- | [] ]. discriminate. }
  split; [ exact Hi | ].
  destruct (invalid_write_rejected node1_peers all_up
              (mk_request (Some (JObj [("value", JStr "v")])) [])
              [("value", JStr "v")] node_with_x eq_refl Hi)
    as (Ha & _ & Hd & Hw).
  reflexivity.
Defined.

(** A node with no peers at all, every call answered 200 if there were
    any: the strong write is still refused. *)
Lemma zero_peers_strong_write_rejected_witness :
  handle_write [] all_up (write_req (JStr "x") (JStr "1") (Some "strong"))
    node_with_x
  = (Ok err_quorum, node_with_x).
Proof.
  destruct (zero_peers_strong_write_rejected all_up
              (write_req (JStr "x") (JStr "1") (Some "strong"))
              (JStr "x") (JStr "1") node_with_x) as (_ & _ & H).
  - apply carries_write_req.
  - reflexivity.
  - discriminate.
  - reflexivity.
  - exact H.
Defined.

(** Key 0 is refused; value 0 under key "k" is stored. *)
Lemma write_key_truthiness_witness :
  handle_write node1_peers all_up (write_req (JNum 0) (JStr "v") None)
    node_with_x
  = (Ok err_missing, node_with_x)
  /\ answer (handle_read "k")
       (after (handle_write node1_peers all_down
                 (write_req (JStr "k") (JNum 0) None)) node_with_x)
     = Ok (found "k" (JNum 0)).
Proof.
  split.
  - apply (write_key_truthiness node1_peers all_up
             (write_req (JNum 0) (JStr "v") None) (JNum 0) (JStr "v")
             node_with_x (carries_write_req _ _ _)).
    left. reflexivity.
  - destruct (write_key_truthiness node1_peers all_down
                (write_req (JStr "k") (JNum 0) None) (JStr "k") (JNum 0)
                node_with_x (carries_write_req _ _ _)) as [_ H].
    destruct (H "k" eq_refl) as [He _].
    + discriminate.
    + left. reflexivity.
    + destruct He as [_ Hr]; [ discriminate | exact Hr ].
Defined.

(** * Further properties of the code *)

(** ** The store as a dict *)

(** Only a string equals a string. *)
Lemma key_eqb_str (a : json) (k : string) :
  key_eqb a (JStr k) = true -> a = JStr k.
Proof.
  destruct a as [ | b | n | s | l | o ]; simpl; try discriminate.
  intros E. apply String.eqb_eq in E. subst s. reflexivity.
Qed.

(** Assigning under [key] leaves what is stored under another string. *)
Lemma dict_lookup_store_other (key v : json) (k' : string) (d : dict) :
  key <> JStr k' ->
  dict_lookup (JStr k') (dict_store key v d) = dict_lookup (JStr k') d.
Proof.
  intros Hne.
  assert (Hk : key_eqb key (JStr k') = false).
  { destruct (key_eqb key (JStr k')) eqn:E; [ | reflexivity ].
    contradiction Hne. apply key_eqb_str. exact E. }
  induction d as [ | [a va] d IH ]; simpl.
  - rewrite Hk. reflexivity.
  - destruct (key_eqb a key) eqn:E; simpl.
    + destruct (key_eqb a (JStr k')) eqn:E'; [ | reflexivity ].
      apply key_eqb_str in E'. subst a. contradiction Hne.
      destruct key as [ | b | n | t | l | o ]; simpl in E; try discriminate.
      apply String.eqb_eq in E. subst t. reflexivity.
    + rewrite IH. reflexivity.
Qed.

(** An assignment keeps every key where it is and adds at most one, at the
    end. *)
Lemma dict_store_keys (k v : json) (d : dict) :
  dict_keys (dict_store k v d) = dict_keys d
  \/ dict_keys (dict_store k v d) = (dict_keys d ++ [k])%list.
Proof.
  unfold dict_keys. induction d as [ | [a va] d IH ]; simpl.
  - right. reflexivity.
  - destruct (key_eqb a k); simpl.
    + left. reflexivity.
    + destruct IH as [ -> | -> ]; [ left | right ]; reflexivity.
Qed.



(** ** The request, by cases *)

Lemma body_cases (req : request) :
  (forall o, json_body req <> Some (JObj o))
  \/ exists o, json_body req = Some (JObj o).
Proof.
  destruct (json_body req) as [ [ | b | n | t | l | o ] | ];
    try (left; intros o'; discriminate).
  right. exists o. reflexivity.
Qed.

Lemma entry_cases (key value : json) :
  (truthy key = false \/ value = JNull)
  \/ (truthy key = true /\ value <> JNull).
Proof.
  destruct (truthy key).
  - destruct value; try (right; split; [ reflexivity | discriminate ]).
    left. right. reflexivity.
  - left. left. reflexivity.
Qed.

(** ** The fire-and-forget loop on the wire *)

Lemma replicate_write_loop_wire (net : post_call -> post_result)
  (payload : json) (urls : list string) :
  forall s, exists n,
    (n <= List.length urls)%nat
    /\ wire (snd (replicate_write_loop net payload urls s))
       = (wire s ++ firstn n (async_calls payload urls))%list.
Proof.
  induction urls as [ | url urls IH ]; intros s; simpl.
  - exists 0%nat. split; [ lia | ]. simpl. rewrite app_nil_r. reflexivity.
  - unfold bind, try_except, requests_post, only_RequestException, ret.
    destruct (net _); simpl.
    + destruct (IH (mk_node (data s)
                      (wire s ++ [mk_post (url ++ "/replicate") payload 500])))
        as (n & Hn & Hw).
      exists (S n). split; [ lia | ]. rewrite Hw. simpl.
      rewrite <- app_assoc. reflexivity.
    + destruct (IH (mk_node (data s)
                      (wire s ++ [mk_post (url ++ "/replicate") payload 500])))
        as (n & Hn & Hw).
      exists (S n). split; [ lia | ]. rewrite Hw. simpl.
      rewrite <- app_assoc. reflexivity.
    + exists 1%nat. split; [ lia | ]. reflexivity.
Qed.

Lemma replicate_write_loop_complete (net : post_call -> post_result)
  (payload : json) (urls : list string) :
  (forall c, net c <> Crashed) ->
  forall s, replicate_write_loop net payload urls s
            = (Ok tt, mk_node (data s) (wire s ++ async_calls payload urls)).
Proof.
  intros Hnc. induction urls as [ | url urls IH ]; intros s; simpl.
  - unfold ret. rewrite app_nil_r. destruct s; reflexivity.
  - unfold bind, try_except, requests_post, only_RequestException, ret.
    destruct (net _) eqn:E; simpl.
    + rewrite IH. simpl. rewrite <- app_assoc. reflexivity.
    + rewrite IH. simpl. rewrite <- app_assoc. reflexivity.
    + contradiction (Hnc _ E).
Qed.

(** ** More runs of the write coordinator *)

Lemma handle_write_not_object_run (PEER_URLS : list (string * string))
  (net : post_call -> post_result) (req : request) (s : node) :
  (forall o, json_body req <> Some (JObj o)) ->
  handle_write PEER_URLS net req s = (Ok err_invalid_json, s).
Proof.
  intros H. unfold handle_write, bind.
  rewrite (write_prologue_not_object req s H). reflexivity.
Qed.

Lemma handle_write_eventual_unhashable_run (PEER_URLS : list (string * string))
  (net : post_call -> post_result) (req : request) (key value : json)
  (s : node) :
  carries req key value -> truthy key = true -> value <> JNull ->
  consistency_of req <> "strong" -> hashable key = false ->
  handle_write PEER_URLS net req s = (Raise TypeError, s).
Proof.
  intros Hc Ht Hn Hs Hh. unfold handle_write, bind at 1.
  rewrite (write_prologue_valid req key value s Hc Ht Hn).
  fold (consistency_of req).
  destruct (String.eqb_spec (consistency_of req) "strong") as [E | _];
    [ contradiction | ].
  unfold bind at 1, data_setitem. rewrite Hh. reflexivity.
Qed.

Lemma carries_fun (req : request) (key value key' value' : json) :
  carries req key value -> carries req key' value' ->
  key = key' /\ value = value'.
Proof.
  intros (o & Hb & Hk & Hv) (o' & Hb' & Hk' & Hv').
  rewrite Hb in Hb'. injection Hb' as <-. subst. split; reflexivity.
Qed.

(** ** The peer registry *)

(** X1: whatever this node's id is, the registry never lists the node
    itself, lists only nodes of [PEER_NODES] under the URL
    "http://<node>:5000", and holds two or three peers. *)
Theorem peer_registry_excludes_self (NODE_ID : string) :
  ~ In NODE_ID (map fst (PEER_URLS_for NODE_ID))
  /\ (forall e, In e (PEER_URLS_for NODE_ID) ->
        In (fst e) PEER_NODES
        /\ fst e <> NODE_ID
        /\ snd e = "http://" ++ fst e ++ ":5000")
  /\ (2 <= List.length (PEER_URLS_for NODE_ID) <= 3)%nat.
Proof.
  assert (Hin : forall e, In e (PEER_URLS_for NODE_ID) ->
            In (fst e) PEER_NODES
            /\ fst e <> NODE_ID
            /\ snd e = "http://" ++ fst e ++ ":5000").
  { intros e He. unfold PEER_URLS_for in He.
    apply in_map_iff in He. destruct He as (n & <- & Hn).
    apply filter_In in Hn. destruct Hn as [Hn Hne]. simpl.
    split; [ exact Hn | split; [ | reflexivity ] ].
    destruct (String.eqb_spec n NODE_ID); [ discriminate | assumption ]. }
  split; [ | split; [ exact Hin | ] ].
  - intros H. apply in_map_iff in H. destruct H as (e & He & Hi).
    destruct (Hin e Hi) as (_ & Hne & _). contradiction.
  - unfold PEER_URLS_for. rewrite length_map. unfold PEER_NODES.
    cbv [filter].
    destruct (String.eqb_spec "node1" NODE_ID) as [ E1 | _ ],
             (String.eqb_spec "node2" NODE_ID) as [ E2 | _ ],
             (String.eqb_spec "node3" NODE_ID) as [ E3 | _ ];
      cbn [negb List.length]; try lia; exfalso; congruence.
Qed.

(** ** handle_write beyond the validated path *)

Section WriteEdges.

Variable PEER_URLS : list (string * string).
Variable net : post_call -> post_result.

(** X2: a write whose body is not JSON, or is JSON but not an object (null,
    a number, a string, an array), is answered 400 "Invalid JSON" and the
    node is left as it was: nothing stored, nothing sent. *)
Theorem write_body_not_an_object (req : request) (s : node) :
  (forall o, json_body req <> Some (JObj o)) ->
  handle_write PEER_URLS net req s = (Ok err_invalid_json, s)
  /\ status err_invalid_json = 400.
Proof.
  intros H. split; [ | reflexivity ].
  apply handle_write_not_object_run. exact H.
Qed.

(** X3: a key that is a non-empty array or object passes the validation of
    [handle_write] and then cannot index the store.  An eventual write
    raises TypeError at once, with nothing stored and nothing sent.  A
    strong write first sends the entry to every peer; it then raises
    TypeError exactly when the quorum is met and answers 503 exactly when
    it is not; the store is unchanged either way. *)
Theorem write_unhashable_key (req : request) (key value : json) (s : node) :
  carries req key value -> truthy key = true -> value <> JNull ->
  hashable key = false ->
  (consistency_of req <> "strong" ->
     handle_write PEER_URLS net req s = (Raise TypeError, s))
  /\ (consistency_of req = "strong" ->
      data (after (handle_write PEER_URLS net req) s) = data s
      /\ wire (after (handle_write PEER_URLS net req) s)
         = (wire s ++ sync_calls (payload_of key value)
                                 (peer_values PEER_URLS))%list
      /\ (answer (handle_write PEER_URLS net req) s = Raise TypeError
          <-> quorum <= ack_count net (peer_values PEER_URLS) key value)
      /\ (answer (handle_write PEER_URLS net req) s = Ok err_quorum
          <-> ack_count net (peer_values PEER_URLS) key value < quorum)).
Proof.
  intros Hc Ht Hn Hh. split.
  - intros Hs.
    apply (handle_write_eventual_unhashable_run PEER_URLS net req key value s
             Hc Ht Hn Hs Hh).
  - intros Hs. unfold answer, after.
    rewrite (handle_write_strong_run PEER_URLS net req key value s Hc Ht Hn Hs).
    cbv zeta. rewrite Hh.
    destruct (Z.geb_spec (ack_count net (peer_values PEER_URLS) key value)
                quorum) as [Hq | Hq]; simpl.
    + repeat split; try reflexivity; try (intros _; lia).
      * intros E. discriminate.
      * intros E. lia.
    + repeat split; try reflexivity; try (intros _; lia).
      * intros E. discriminate.
      * intros E. lia.
Qed.

(** X4: the only exception [handle_write] lets out is TypeError, and only
    for a request whose key is unhashable; the store is then unchanged. *)
Theorem write_raises_only_TypeError (req : request) (e : exn) (s : node) :
  answer (handle_write PEER_URLS net req) s = Raise e ->
  e = TypeError
  /\ (exists o, json_body req = Some (JObj o)
                /\ hashable (obj_get o "key") = false)
  /\ data (after (handle_write PEER_URLS net req) s) = data s.
Proof.
  unfold answer, after.
  destruct (body_cases req) as [ Hno | [o Hb] ].
  - rewrite (handle_write_not_object_run PEER_URLS net req s Hno).
    discriminate.
  - assert (Hc : carries req (obj_get o "key") (obj_get o "value")).
    { exists o. auto. }
    destruct (entry_cases (obj_get o "key") (obj_get o "value"))
      as [ Hbad | [Ht Hn] ].
    + rewrite (handle_write_invalid_run PEER_URLS net req _ _ s Hc Hbad).
      discriminate.
    + destruct (String.eqb_spec (consistency_of req) "strong") as [Hs | Hs].
      * rewrite (handle_write_strong_run PEER_URLS net req _ _ s Hc Ht Hn Hs).
        cbv zeta. destruct (_ >=? quorum); [ | discriminate ].
        destruct (hashable (obj_get o "key")) eqn:Hh; [ discriminate | ].
        simpl. intros E. injection E as <-.
        split; [ reflexivity | split; [ | reflexivity ] ].
        exists o. auto.
      * destruct (hashable (obj_get o "key")) eqn:Hh.
        -- destruct (handle_write_eventual_run PEER_URLS net req _ _ s
                       Hc Ht Hn Hs Hh) as [w Hw].
           rewrite Hw. discriminate.
        -- rewrite (handle_write_eventual_unhashable_run PEER_URLS net req
                      _ _ s Hc Ht Hn Hs Hh).
           simpl. intros E. injection E as <-.
           split; [ reflexivity | split; [ | reflexivity ] ].
           exists o. auto.
Qed.

(** X5: [handle_write] changes the store only together with a 200 answer,
    and then by the single assignment [data[key] = value] of the entry the
    request carries; with any other answer, or an exception, the store is
    what it was. *)
Theorem write_changes_store_only_on_200 (req : request) (s : node) :
  data (after (handle_write PEER_URLS net req) s) = data s
  \/ exists r key value,
       answer (handle_write PEER_URLS net req) s = Ok r
       /\ status r = 200
       /\ carries req key value
       /\ data (after (handle_write PEER_URLS net req) s)
          = dict_store key value (data s).
Proof.
  unfold answer, after.
  destruct (body_cases req) as [ Hno | [o Hb] ].
  - rewrite (handle_write_not_object_run PEER_URLS net req s Hno).
    left. reflexivity.
  - assert (Hc : carries req (obj_get o "key") (obj_get o "value")).
    { exists o. auto. }
    destruct (entry_cases (obj_get o "key") (obj_get o "value"))
      as [ Hbad | [Ht Hn] ].
    + rewrite (handle_write_invalid_run PEER_URLS net req _ _ s Hc Hbad).
      left. reflexivity.
    + destruct (String.eqb_spec (consistency_of req) "strong") as [Hs | Hs].
      * rewrite (handle_write_strong_run PEER_URLS net req _ _ s Hc Ht Hn Hs).
        cbv zeta. destruct (_ >=? quorum); [ | left; reflexivity ].
        destruct (hashable (obj_get o "key")); [ | left; reflexivity ].
        right. exists ok_strong, (obj_get o "key"), (obj_get o "value").
        simpl. auto.
      * destruct (hashable (obj_get o "key")) eqn:Hh.
        -- destruct (handle_write_eventual_run PEER_URLS net req _ _ s
                       Hc Ht Hn Hs Hh) as [w Hw].
           rewrite Hw. right.
           exists ok_eventual, (obj_get o "key"), (obj_get o "value").
           simpl. auto.
        -- rewrite (handle_write_eventual_unhashable_run PEER_URLS net req
                      _ _ s Hc Ht Hn Hs Hh).
           left. reflexivity.
Qed.

End WriteEdges.

(** ** What the handlers do to the store *)

(** Either nothing, or one assignment under the hashable key the request
    carries. *)
Lemma handle_write_store_effect (PEER_URLS : list (string * string))
  (net : post_call -> post_result) (req : request) (s : node) :
  data (after (handle_write PEER_URLS net req) s) = data s
  \/ exists key value,
       carries req key value /\ hashable key = true
       /\ data (after (handle_write PEER_URLS net req) s)
          = dict_store key value (data s).
Proof.
  unfold after.
  destruct (body_cases req) as [ Hno | [o Hb] ].
  - rewrite (handle_write_not_object_run PEER_URLS net req s Hno).
    left. reflexivity.
  - assert (Hc : carries req (obj_get o "key") (obj_get o "value")).
    { exists o. auto. }
    destruct (entry_cases (obj_get o "key") (obj_get o "value"))
      as [ Hbad | [Ht Hn] ].
    + rewrite (handle_write_invalid_run PEER_URLS net req _ _ s Hc Hbad).
      left. reflexivity.
    + destruct (hashable (obj_get o "key")) eqn:Hh.
      * destruct (String.eqb_spec (consistency_of req) "strong") as [Hs | Hs].
        -- rewrite (handle_write_strong_run PEER_URLS net req _ _ s
                      Hc Ht Hn Hs).
           cbv zeta. rewrite Hh.
           destruct (_ >=? quorum); [ | left; reflexivity ].
           right. exists (obj_get o "key"), (obj_get o "value"). auto.
        -- destruct (handle_write_eventual_run PEER_URLS net req _ _ s
                       Hc Ht Hn Hs Hh) as [w Hw].
           rewrite Hw. right.
           exists (obj_get o "key"), (obj_get o "value"). auto.
      * destruct (String.eqb_spec (consistency_of req) "strong") as [Hs | Hs].
        -- rewrite (handle_write_strong_run PEER_URLS net req _ _ s
                      Hc Ht Hn Hs).
           cbv zeta. rewrite Hh.
           destruct (_ >=? quorum); left; reflexivity.
        -- rewrite (handle_write_eventual_unhashable_run PEER_URLS net req
                      _ _ s Hc Ht Hn Hs Hh).
           left. reflexivity.
Qed.

Lemma handle_replication_store_effect (req : request) (s : node) :
  data (after (handle_replication req) s) = data s
  \/ exists key value,
       carries req key value /\ hashable key = true
       /\ data (after (handle_replication req) s)
          = dict_store key value (data s).
Proof.
  unfold after. rewrite handle_replication_run.
  destruct (json_body req) as [ [ | b | n | t | l | o ] | ] eqn:Hb;
    try (left; reflexivity).
  destruct (hashable (obj_get o "key")) eqn:Hh; [ | left; reflexivity ].
  right. exists (obj_get o "key"), (obj_get o "value").
  split; [ exists o; auto | auto ].
Qed.

(** ** The replication receiver, completely *)

(** X6: [handle_replication] never raises and has two answers.  It answers
    200 exactly when the body is a JSON object whose key reads as a
    hashable value (a string, a number, a boolean, or null for a missing
    key); in every other case it answers 400 "Invalid replication data"
    and leaves the node as it was. *)
Theorem replication_answers (req : request) (s : node) :
  (answer (handle_replication req) s = Ok ok_replicated
   <-> exists o, json_body req = Some (JObj o)
                 /\ hashable (obj_get o "key") = true)
  /\ (answer (handle_replication req) s = Ok ok_replicated
      \/ handle_replication req s = (Ok err_replication, s)).
Proof.
  unfold answer. rewrite handle_replication_run.
  destruct (json_body req) as [ [ | b | n | t | l | o ] | ] eqn:Hb;
    try (split; [ split; [ discriminate | intros (o' & Ho & _); discriminate ]
                | right; reflexivity ]).
  destruct (hashable (obj_get o "key")) eqn:Hh; simpl.
  - split; [ split; [ intros _; exists o; auto | reflexivity ] | left; reflexivity ].
  - split; [ | right; reflexivity ].
    split; [ discriminate | ].
    intros (o' & Ho & Hh'). injection Ho as <-. rewrite Hh in Hh'. discriminate.
Qed.

(** X7: the answer of [handle_replication] does not depend on what the
    receiving node holds, only on the request. *)
Theorem replication_answer_stateless (req : request) (s s' : node) :
  answer (handle_replication req) s = answer (handle_replication req) s'.
Proof.
  unfold answer. rewrite !handle_replication_run.
  destruct (json_body req) as [ [ | b | n | t | l | o ] | ]; try reflexivity.
  destruct (hashable (obj_get o "key")); reflexivity.
Qed.

(** X8: a replicated entry with a string key is readable at once: whatever
    the store held, [handle_read] of that key then answers 200 with the
    replicated value, also when the key is the empty string or the value
    is null, which [handle_write] would have refused. *)
Theorem replication_then_read (req : request) (k : string) (value : json)
  (s : node) :
  carries req (JStr k) value ->
  answer (handle_replication req) s = Ok ok_replicated
  /\ answer (handle_read k) (after (handle_replication req) s)
     = Ok (found k value).
Proof.
  intros (o & Hb & Hk & Hv). unfold answer, after.
  rewrite handle_replication_run, Hb, Hk, Hv. simpl.
  split; [ reflexivity | ].
  rewrite handle_read_run. simpl.
  rewrite dict_lookup_store by reflexivity. reflexivity.
Qed.

(** ** Frame and invariants of the store *)

Section StoreInvariants.

Variable PEER_URLS : list (string * string).
Variable net : post_call -> post_result.

(** X9: a write or a replicated write whose key is not the string [k']
    leaves the answer of [handle_read k'] as it was, whatever the outcome
    of the write. *)
Theorem other_keys_undisturbed (req : request) (k' : string) (s : node) :
  (forall key value, carries req key value -> key <> JStr k') ->
  answer (handle_read k') (after (handle_write PEER_URLS net req) s)
  = answer (handle_read k') s
  /\ answer (handle_read k') (after (handle_replication req) s)
     = answer (handle_read k') s.
Proof.
  intros Hne. unfold answer at 1 2 3 4. rewrite !handle_read_run. simpl.
  split.
  - destruct (handle_write_store_effect PEER_URLS net req s)
      as [ -> | (key & value & Hc & _ & ->) ]; [ reflexivity | ].
    rewrite (dict_lookup_store_other key value k' (data s) (Hne _ _ Hc)).
    reflexivity.
  - destruct (handle_replication_store_effect req s)
      as [ -> | (key & value & Hc & _ & ->) ]; [ reflexivity | ].
    rewrite (dict_lookup_store_other key value k' (data s) (Hne _ _ Hc)).
    reflexivity.
Qed.

(** X10: no handler removes or reorders keys: after [handle_write] or
    [handle_replication] the keys of the store are the keys it had, in the
    same order, with at most one new key at the end. *)
Theorem store_keys_only_grow (req : request) (s : node) :
  (dict_keys (data (after (handle_write PEER_URLS net req) s))
   = dict_keys (data s)
   \/ exists k,
        dict_keys (data (after (handle_write PEER_URLS net req) s))
        = (dict_keys (data s) ++ [k])%list)
  /\ (dict_keys (data (after (handle_replication req) s)) = dict_keys (data s)
      \/ exists k,
           dict_keys (data (after (handle_replication req) s))
           = (dict_keys (data s) ++ [k])%list).
Proof.
  split.
  - destruct (handle_write_store_effect PEER_URLS net req s)
      as [ -> | (key & value & _ & _ & ->) ]; [ left; reflexivity | ].
    destruct (dict_store_keys key value (data s)) as [ E | E ];
      [ left; exact E | right; exists key; exact E ].
  - destruct (handle_replication_store_effect req s)
      as [ -> | (key & value & _ & _ & ->) ]; [ left; reflexivity | ].
    destruct (dict_store_keys key value (data s)) as [ E | E ];
      [ left; exact E | right; exists key; exact E ].
Qed.


End StoreInvariants.

(** ** The two replication helpers on the wire *)

Section Helpers.

Variable PEER_URLS : list (string * string).
Variable net : post_call -> post_result.

(** X12: [replicate_write] never touches the store, and what it puts on
    the wire is an initial part of the list "one call per peer, in
    registry order, to <url>/replicate, carrying {key, value}, with the
    0.5 s timeout": it never calls a peer twice and never calls anything
    else. *)
Theorem replicate_write_effects (key value : json) (s : node) :
  data (after (replicate_write PEER_URLS net key value) s) = data s
  /\ exists n,
       (n <= List.length PEER_URLS)%nat
       /\ wire (after (replicate_write PEER_URLS net key value) s)
          = (wire s ++ firstn n (async_calls (payload_of key value)
                                             (peer_values PEER_URLS)))%list.
Proof.
  unfold after, replicate_write. split.
  - apply replicate_write_loop_data.
  - destruct (replicate_write_loop_wire net (payload_of key value)
                (peer_values PEER_URLS) s) as (n & Hn & Hw).
    exists n. split; [ | exact Hw ].
    unfold peer_values in Hn. rewrite length_map in Hn. exact Hn.
Qed.

(** X13: when no call fails outside [RequestException], [replicate_write]
    returns normally having called every peer exactly once, in registry
    order: a peer that is down or times out does not keep the entry from
    being sent to the peers after it. *)
Theorem replicate_write_reaches_every_peer (key value : json) (s : node) :
  (forall c, net c <> Crashed) ->
  replicate_write PEER_URLS net key value s
  = (Ok tt,
     mk_node (data s)
             (wire s ++ async_calls (payload_of key value)
                                    (peer_values PEER_URLS))).
Proof.
  intros H. unfold replicate_write.
  apply replicate_write_loop_complete. exact H.
Qed.

(** X14: [replicate_write_synchronous] always returns, whatever the peers
    do; its result lies between 0 and the number of peers; and it has put
    exactly one call per peer on the wire, in registry order, each to
    <url>/replicate with the 2 s timeout. *)
Theorem sync_fanout_effects (key value : json) (s : node) :
  exists acks,
    replicate_write_synchronous PEER_URLS net key value s
    = (Ok acks,
       mk_node (data s)
               (wire s ++ sync_calls (payload_of key value)
                                     (peer_values PEER_URLS)))
    /\ 0 <= acks <= Z.of_nat (List.length PEER_URLS).
Proof.
  exists (ack_count net (peer_values PEER_URLS) key value). split.
  - unfold replicate_write_synchronous.
    apply replicate_write_synchronous_on_run.
  - unfold ack_count. split; [ lia | ].
    apply Nat2Z.inj_le.
    rewrite <- (length_map snd PEER_URLS). apply filter_length_le.
Qed.

(** X15: the tally of the quorum fan-out does not depend on the order in
    which the peers are taken: over any reordering of the peer list the
    function returns the same number. *)
Theorem sync_tally_order_independent (urls urls' : list string)
  (key value : json) (s : node) :
  Permutation urls urls' ->
  answer (replicate_write_synchronous_on net urls key value) s
  = answer (replicate_write_synchronous_on net urls' key value) s.
Proof.
  intros H. unfold answer. rewrite !replicate_write_synchronous_on_run.
  simpl. f_equal. apply ack_count_schedule. exact H.
Qed.

(** X16: a valid strong write calls every peer exactly once before it
    decides, whether it then commits, is refused or raises; and since the
    quorum is 1, a refusal means that not one peer answered 200. *)
Theorem strong_write_calls_every_peer (req : request) (key value : json)
  (s : node) :
  carries req key value -> truthy key = true -> value <> JNull ->
  consistency_of req = "strong" ->
  wire (after (handle_write PEER_URLS net req) s)
  = (wire s ++ sync_calls (payload_of key value) (peer_values PEER_URLS))%list
  /\ (answer (handle_write PEER_URLS net req) s = Ok err_quorum ->
      forall url, In url (peer_values PEER_URLS) ->
        net (mk_post (url ++ "/replicate") (payload_of key value) 2000)
        <> Response 200).
Proof.
  intros Hc Ht Hn Hs. unfold answer, after.
  rewrite (handle_write_strong_run PEER_URLS net req key value s Hc Ht Hn Hs).
  cbv zeta.
  destruct (Z.geb_spec (ack_count net (peer_values PEER_URLS) key value)
              quorum) as [Hq | Hq].
  - destruct (hashable key); simpl; (split; [ reflexivity | discriminate ]).
  - simpl. split; [ reflexivity | ].
    intros _ url Hin E.
    unfold ack_count, quorum in Hq.
    assert (Ha : In url (filter (acknowledged net (payload_of key value))
                           (peer_values PEER_URLS))).
    { apply filter_In. split; [ exact Hin | ].
      unfold acknowledged. rewrite E. reflexivity. }
    destruct (filter (acknowledged net (payload_of key value))
                (peer_values PEER_URLS)); [ contradiction | simpl in Hq; lia ].
Qed.

End Helpers.

(** ** A cluster of nodes running this program *)

Lemma deliver_entry_run (url : string) (key value : json) (t : Z) (p : node) :
  deliver (mk_post url (payload_of key value) t) p =
  if hashable key
  then (Ok ok_replicated, mk_node (dict_store key value (data p)) (wire p))
  else (Ok err_replication, p).
Proof.
  unfold deliver. rewrite handle_replication_run. reflexivity.
Qed.

Lemma replica_net_entry (url : string) (key value : json) (t : Z) :
  replica_net (mk_post url (payload_of key value) t)
  = Response (if hashable key then 200 else 400).
Proof.
  unfold replica_net, answer. rewrite deliver_entry_run.
  destruct (hashable key); reflexivity.
Qed.

Lemma replica_net_never_crashes (c : post_call) : replica_net c <> Crashed.
Proof.
  unfold replica_net. destruct (answer (deliver c) empty_node); discriminate.
Qed.

Lemma ack_count_replicas (urls : list string) (key value : json) :
  ack_count replica_net urls key value
  = if hashable key then Z.of_nat (List.length urls) else 0.
Proof.
  unfold ack_count.
  rewrite (filter_ext (acknowledged replica_net (payload_of key value))
             (fun _ => hashable key)).
  - destruct (hashable key).
    + rewrite forallb_filter_id; [ reflexivity | ].
      apply forallb_forall. reflexivity.
    + induction urls as [ | u urls IH ]; [ reflexivity | exact IH ].
  - intros url. unfold acknowledged. rewrite replica_net_entry.
    destruct (hashable key); reflexivity.
Qed.

Lemma handle_write_eventual_complete (PEER_URLS : list (string * string))
  (net : post_call -> post_result) (req : request) (key value : json)
  (s : node) :
  (forall c, net c <> Crashed) ->
  carries req key value -> truthy key = true -> value <> JNull ->
  consistency_of req <> "strong" -> hashable key = true ->
  handle_write PEER_URLS net req s
  = (Ok ok_eventual,
     mk_node (dict_store key value (data s))
             (wire s ++ async_calls (payload_of key value)
                                    (peer_values PEER_URLS))).
Proof.
  intros Hnc Hc Ht Hn Hs Hh. unfold handle_write, bind at 1.
  rewrite (write_prologue_valid req key value s Hc Ht Hn).
  fold (consistency_of req).
  destruct (String.eqb_spec (consistency_of req) "strong") as [E | _];
    [ contradiction | ].
  unfold bind at 1, data_setitem. rewrite Hh.
  unfold bind at 1, run_thread, try_except, replicate_write.
  rewrite (replicate_write_loop_complete net _ _ Hnc). reflexivity.
Qed.

Section Cluster.

Variable PEER_URLS : list (string * string).

(** X17: in a cluster whose peers all run this program and are reachable,
    a valid strong write with a string key always commits when there is at
    least one peer: the coordinator answers 200 and reads the value back,
    and every call it sent is answered 200 by the peer that receives it,
    which then reads the value too and itself sends nothing on. *)
Theorem cluster_strong_write_commits (req : request) (k : string)
  (value : json) (s : node) :
  PEER_URLS <> [] ->
  carries req (JStr k) value -> k <> "" -> value <> JNull ->
  consistency_of req = "strong" ->
  answer (handle_write PEER_URLS replica_net req) s = Ok ok_strong
  /\ answer (handle_read k) (after (handle_write PEER_URLS replica_net req) s)
     = Ok (found k value)
  /\ wire (after (handle_write PEER_URLS replica_net req) s)
     = (wire s ++ sync_calls (payload_of (JStr k) value)
                             (peer_values PEER_URLS))%list
  /\ forall c p,
       In c (sync_calls (payload_of (JStr k) value) (peer_values PEER_URLS)) ->
       answer (deliver c) p = Ok ok_replicated
       /\ answer (handle_read k) (after (deliver c) p) = Ok (found k value)
       /\ wire (after (deliver c) p) = wire p.
Proof.
  intros Hne Hc Hk Hn Hs.
  assert (Hq : quorum
               <= ack_count replica_net (peer_values PEER_URLS) (JStr k) value).
  { rewrite ack_count_replicas. simpl. unfold peer_values, quorum.
    rewrite length_map. destruct PEER_URLS; [ contradiction | simpl; lia ]. }
  unfold answer at 1 2, after at 1 2.
  rewrite (handle_write_strong_commit PEER_URLS replica_net req (JStr k) value
             s Hc (truthy_nonempty k Hk) Hn Hs eq_refl Hq).
  simpl. split; [ reflexivity | split; [ apply read_after_store | ] ].
  split; [ reflexivity | ].
  intros c p Hin. unfold sync_calls in Hin.
  apply in_map_iff in Hin. destruct Hin as (url & <- & _).
  unfold answer at 1, after. rewrite deliver_entry_run. simpl.
  split; [ reflexivity | split; [ apply read_after_store | reflexivity ] ].
Qed.

(** X18: in such a cluster a strong write whose key is a non-empty array
    or object never commits and never raises: every peer answers the call
    with 400 and keeps its store, so the coordinator answers 503 with its
    own store unchanged. *)
Theorem cluster_strong_write_unhashable_refused (req : request)
  (key value : json) (s : node) :
  carries req key value -> truthy key = true -> value <> JNull ->
  hashable key = false -> consistency_of req = "strong" ->
  answer (handle_write PEER_URLS replica_net req) s = Ok err_quorum
  /\ data (after (handle_write PEER_URLS replica_net req) s) = data s
  /\ forall c p,
       In c (sync_calls (payload_of key value) (peer_values PEER_URLS)) ->
       deliver c p = (Ok err_replication, p).
Proof.
  intros Hc Ht Hn Hh Hs. unfold answer, after.
  rewrite (handle_write_strong_run PEER_URLS replica_net req key value s
             Hc Ht Hn Hs).
  cbv zeta. rewrite ack_count_replicas, Hh. simpl.
  split; [ reflexivity | split; [ reflexivity | ] ].
  intros c p Hin. unfold sync_calls in Hin.
  apply in_map_iff in Hin. destruct Hin as (url & <- & _).
  rewrite deliver_entry_run, Hh. reflexivity.
Qed.

(** X19: in such a cluster a valid eventual write with a string key is
    stored locally, sent once to every peer, and every peer that handles
    the call it receives then reads the value as well. *)
Theorem cluster_eventual_write_propagates (req : request) (k : string)
  (value : json) (s : node) :
  carries req (JStr k) value -> k <> "" -> value <> JNull ->
  consistency_of req <> "strong" ->
  handle_write PEER_URLS replica_net req s
  = (Ok ok_eventual,
     mk_node (dict_store (JStr k) value (data s))
             (wire s ++ async_calls (payload_of (JStr k) value)
                                    (peer_values PEER_URLS)))
  /\ forall c p,
       In c (async_calls (payload_of (JStr k) value) (peer_values PEER_URLS)) ->
       answer (deliver c) p = Ok ok_replicated
       /\ answer (handle_read k) (after (deliver c) p) = Ok (found k value)
       /\ wire (after (deliver c) p) = wire p.
Proof.
  intros Hc Hk Hn Hs. split.
  - apply (handle_write_eventual_complete PEER_URLS replica_net req (JStr k)
             value s replica_net_never_crashes Hc (truthy_nonempty k Hk)
             Hn Hs eq_refl).
  - intros c p Hin. unfold async_calls in Hin.
    apply in_map_iff in Hin. destruct Hin as (url & <- & _).
    unfold answer at 1, after. rewrite deliver_entry_run. simpl.
    split; [ reflexivity | split; [ apply read_after_store | reflexivity ] ].
Qed.

End Cluster.

(** ** The further properties at concrete requests *)

Lemma write_body_not_an_object_witness :
  handle_write node1_peers all_up (mk_request None [("consistency", "strong")])
    node_with_x
  = (Ok err_invalid_json, node_with_x).
Proof.
  apply (write_body_not_an_object node1_peers all_up
           (mk_request None [("consistency", "strong")]) node_with_x).
  intros o. discriminate.
Defined.

Lemma write_unhashable_key_witness :
  handle_write node1_peers all_up
    (write_req (JArr [JNum 1]) (JStr "v") None) node_with_x
  = (Raise TypeError, node_with_x).
Proof.
  apply (write_unhashable_key node1_peers all_up
           (write_req (JArr [JNum 1]) (JStr "v") None)
           (JArr [JNum 1]) (JStr "v") node_with_x).
  - apply carries_write_req.
  - reflexivity.
  - discriminate.
  - reflexivity.
  - discriminate.
Defined.

Lemma write_raises_only_TypeError_witness :
  answer (handle_write node1_peers all_up
            (write_req (JObj [("a", JNull)]) (JNum 1) (Some "strong")))
         empty_node
  = Raise TypeError
  /\ data (after (handle_write node1_peers all_up
                    (write_req (JObj [("a", JNull)]) (JNum 1) (Some "strong")))
                 empty_node) = [].
Proof.
  assert (H : answer (handle_write node1_peers all_up
                        (write_req (JObj [("a", JNull)]) (JNum 1)
                                   (Some "strong"))) empty_node
              = Raise TypeError) by reflexivity.
  split; [ exact H | ].
  destruct (write_raises_only_TypeError node1_peers all_up _ _ _ H)
    as (_ & _ & Hd).
  exact Hd.
Defined.

Lemma replication_then_read_witness :
  answer (handle_read "")
    (after (handle_replication (mk_request (Some (JObj [("key", JStr "")])) []))
           node_with_x)
  = Ok (found "" JNull).
Proof.
  destruct (replication_then_read
              (mk_request (Some (JObj [("key", JStr "")])) [])
              "" JNull node_with_x) as [_ H].
  - exists [("key", JStr "")]. repeat split.
  - exact H.
Defined.

Lemma other_keys_undisturbed_witness :
  answer (handle_read "x")
    (after (handle_write node1_peers all_up
              (write_req (JStr "y") (JStr "2") None)) node_with_x)
  = Ok (found "x" (JStr "old")).
Proof.
  destruct (other_keys_undisturbed node1_peers all_up
              (write_req (JStr "y") (JStr "2") None) "x" node_with_x)
    as [H _].
  - intros key value Hc.
    destruct (carries_fun _ _ _ _ _ Hc
                (carries_write_req (JStr "y") (JStr "2") None)) as [-> _].
    discriminate.
  - rewrite H. reflexivity.
Defined.


Lemma replicate_write_reaches_every_peer_witness :
  replicate_write node1_peers all_down (JStr "z") (JStr "3") empty_node
  = (Ok tt,
     mk_node []
       [mk_post "http://node2:5000/replicate"
                (payload_of (JStr "z") (JStr "3")) 500;
        mk_post "http://node3:5000/replicate"
                (payload_of (JStr "z") (JStr "3")) 500]).
Proof.
  apply (replicate_write_reaches_every_peer node1_peers all_down
           (JStr "z") (JStr "3") empty_node).
  intros c. discriminate.
Defined.

Lemma sync_tally_order_independent_witness :
  answer (replicate_write_synchronous_on only_node2
            ["http://node2:5000"; "http://node3:5000"] (JStr "x") (JStr "1"))
         empty_node
  = answer (replicate_write_synchronous_on only_node2
              ["http://node3:5000"; "http://node2:5000"] (JStr "x") (JStr "1"))
           empty_node.
Proof.
  apply (sync_tally_order_independent only_node2).
  apply perm_swap.
Defined.

Lemma strong_write_calls_every_peer_witness :
  wire (after (handle_write node1_peers all_down
                 (write_req (JStr "y") (JStr "2") (Some "strong"))) empty_node)
  = sync_calls (payload_of (JStr "y") (JStr "2")) (peer_values node1_peers).
Proof.
  destruct (strong_write_calls_every_peer node1_peers all_down
              (write_req (JStr "y") (JStr "2") (Some "strong"))
              (JStr "y") (JStr "2") empty_node) as [H _].
  - apply carries_write_req.
  - reflexivity.
  - discriminate.
  - reflexivity.
  - exact H.
Defined.

Lemma cluster_strong_write_commits_witness :
  answer (handle_write node1_peers replica_net
            (write_req (JStr "x") (JStr "1") (Some "strong"))) node_with_x
  = Ok ok_strong.
Proof.
  destruct (cluster_strong_write_commits node1_peers
              (write_req (JStr "x") (JStr "1") (Some "strong"))
              "x" (JStr "1") node_with_x) as [H _].
  - discriminate.
  - apply carries_write_req.
  - discriminate.
  - discriminate.
  - reflexivity.
  - exact H.
Defined.

Lemma cluster_strong_write_unhashable_refused_witness :
  answer (handle_write node1_peers replica_net
            (write_req (JArr [JNum 1]) (JStr "v") (Some "strong"))) node_with_x
  = Ok err_quorum.
Proof.
  destruct (cluster_strong_write_unhashable_refused node1_peers
              (write_req (JArr [JNum 1]) (JStr "v") (Some "strong"))
              (JArr [JNum 1]) (JStr "v") node_with_x) as [H _].
  - apply carries_write_req.
  - reflexivity.
  - discriminate.
  - reflexivity.
  - reflexivity.
  - exact H.
Defined.

Lemma cluster_eventual_write_propagates_witness :
  answer (handle_write node1_peers replica_net
            (write_req (JStr "z") (JStr "3") None)) empty_node
  = Ok ok_eventual.
Proof.
  destruct (cluster_eventual_write_propagates node1_peers
              (write_req (JStr "z") (JStr "3") None)
              "z" (JStr "3") empty_node) as [H _].
  - apply carries_write_req.
  - discriminate.
  - discriminate.
  - discriminate.
  - unfold answer. rewrite H. reflexivity.
Defined.
